(** * LineFitting.ipynb: the straight-line model and the confidence limits

    The notebook fits [y = m*x + c] with three SciPy routines
    ([scipy.stats.linregress], [scipy.optimize.curve_fit], [scipy.odr]).
    Those routines are library code; what the notebook itself defines is

    - the model function [StrtLineModel(x, m, c)] (and its ODR twin
      [StrtLineModelOdr(p, x)]),
    - the standard errors [perr = np.sqrt(np.diag(pcov))],
    - the confidence limits [popt_upper], [popt_lower] and the three
      evaluated lines [y_fit], [fit_upper], [fit_lower],
    - the cells that call the library and print its results.

    This file embeds that code.  Numbers are kept behind a small
    arithmetic interface.  The notebook runs on IEEE binary64 (NumPy's
    [float64]); a second instance carries, next to each binary64 number,
    the rational that the same computation yields without rounding and a
    flag that records whether any operation has rounded, so that a
    statement can say where rounding matters.  The library calls are
    parameters of the cells; the closed forms by which the specification
    describes the two least-squares estimators are given separately. *)

From Stdlib Require Import List Arith Lia.
From Stdlib Require Import ZArith QArith Qpower Lqa.
From Stdlib Require Import Floats.PrimFloat Floats.SpecFloat Floats.FloatOps.
Import ListNotations.
Close Scope Q_scope.

Set Implicit Arguments.

(** ** The arithmetic the notebook uses

    Only [+], [-], [*] and [np.sqrt] occur in the cells modelled here. *)

Class Arith (F : Type) : Type := {
  f_add  : F -> F -> F;
  f_sub  : F -> F -> F;
  f_mul  : F -> F -> F;
  f_sqrt : F -> F
}.

(** NumPy's [float64]: every operation is the correctly rounded binary64
    one, [np.sqrt] of a negative number is NaN. *)
#[export] Instance binary64 : Arith PrimFloat.float := {|
  f_add  := PrimFloat.add;
  f_sub  := PrimFloat.sub;
  f_mul  := PrimFloat.mul;
  f_sqrt := PrimFloat.sqrt
|}.

(** ** Values: a Python scalar or a one-dimensional array *)

Inductive value (F : Type) : Type :=
| Scalar (a : F)
| Array (l : list F).

Arguments Scalar {F} a.
Arguments Array {F} l.

Definition bind {A B : Type} (o : option A) (k : A -> option B) : option B :=
  match o with
  | Some a => k a
  | None => None
  end.

Notation "x <- e ;; k" := (bind e (fun x => k))
  (at level 61, e at next level, right associativity).

Section NumPy.
Context {F : Type} `{Arith F}.

(** [m * x] with [m] a scalar: NumPy maps over the array. *)
Definition mul_scalar (m : F) (x : value F) : value F :=
  match x with
  | Scalar a => Scalar (f_mul m a)
  | Array l => Array (map (f_mul m) l)
  end.

(** [y + c] with [c] a scalar. *)
Definition add_scalar (y : value F) (c : F) : value F :=
  match y with
  | Scalar a => Scalar (f_add a c)
  | Array l => Array (map (fun a => f_add a c) l)
  end.

(** [k * a] for a Python float [k] and an array [a]. *)
Definition scale (k : F) (a : list F) : list F := map (f_mul k) a.

(** An element-wise binary operator on two one-dimensional arrays.  Equal
    shapes combine point by point, a length-one operand is stretched, any
    other pair of shapes raises [ValueError]. *)
Definition broadcast (op : F -> F -> F) (a b : list F) : option (list F) :=
  if Nat.eqb (length a) (length b)
  then Some (map (fun p => op (fst p) (snd p)) (combine a b))
  else match a, b with
       | [a0], _ => Some (map (op a0) b)
       | _, [b0] => Some (map (fun ai => op ai b0) a)
       | _, _ => None
       end.

Definition np_sqrt (a : list F) : list F := map f_sqrt a.

(** [np.diag] of a two-dimensional array given by its rows. *)
Fixpoint diag_from (i : nat) (rows : list (list F)) : list F :=
  match rows with
  | [] => []
  | r :: rs =>
      match nth_error r i with
      | Some a => a :: diag_from (S i) rs
      | None => []
      end
  end.

Definition np_diag (pcov : list (list F)) : list F := diag_from 0 pcov.

(** ** The model *)

(** The straight line at one point, [m*x + c] on numbers. *)
Definition line (m c x : F) : F := f_add (f_mul m x) c.

(** [def StrtLineModel(x, m, c): y_lin = m*x + c; return (y_lin)] *)
Definition StrtLineModel (x : value F) (m c : F) : value F :=
  let y_lin := add_scalar (mul_scalar m x) c in
  y_lin.

(** [def StrtLineModelOdr(p, x): m, c = p; y_lin = m * x + c; return y_lin].
    Unpacking anything but two parameters raises. *)
Definition StrtLineModelOdr (p : list F) (x : value F) : option (value F) :=
  match p with
  | [m; c] => Some (add_scalar (mul_scalar m x) c)
  | _ => None
  end.

(** [StrtLineModel(x, *popt)]: the call needs exactly two further
    arguments, any other length is a [TypeError]. *)
Definition StrtLineModel_star (x : value F) (popt : list F) : option (value F) :=
  match popt with
  | [m; c] => Some (StrtLineModel x m c)
  | _ => None
  end.

(** The shape of a value: a scalar has none, an array has its length. *)
Definition shape (v : value F) : option nat :=
  match v with
  | Scalar _ => None
  | Array l => Some (length l)
  end.

(** ** Standard errors: [perr = np.sqrt(np.diag(pcov))] *)

Definition perr (pcov : list (list F)) : list F := np_sqrt (np_diag pcov).

(** ** Confidence limits (section 4.2 of the notebook) *)

Record ConfidenceEnvelope : Type := {
  popt_upper : list F;
  popt_lower : list F;
  y_fit      : value F;
  fit_upper  : value F;
  fit_lower  : value F
}.

(** The cell, with the notebook's [nstd] (set to [1.0] there), [popt],
    [perr] and [x] as inputs:
<<
    popt_upper = popt + nstd*perr
    popt_lower = popt - nstd*perr
    y_fit = StrtLineModel(x, *popt)
    fit_upper = StrtLineModel(x, *popt_upper)
    fit_lower = StrtLineModel(x, *popt_lower)
>> *)
Definition confidence_limits (nstd : F) (popt perr : list F) (x : value F)
  : option ConfidenceEnvelope :=
  up <- broadcast f_add popt (scale nstd perr) ;;
  lo <- broadcast f_sub popt (scale nstd perr) ;;
  yf <- StrtLineModel_star x popt ;;
  yu <- StrtLineModel_star x up ;;
  yl <- StrtLineModel_star x lo ;;
  Some {| popt_upper := up; popt_lower := lo;
          y_fit := yf; fit_upper := yu; fit_lower := yl |}.

End NumPy.

Arguments ConfidenceEnvelope F : clear implicits.

(** ** The fitting cells

    The three estimators are SciPy calls.  They enter as parameters: a call
    either returns its results or raises, and nothing is assumed about what
    it computes.  What the cells add is the code around the calls. *)

Section FittingCells.
Context {F : Type} `{Arith F}.

(** [scipy.stats.linregress(x, y)], unpacked as [m, c, r, p, stderr]. *)
Variable linregress : list F -> list F -> option (F * F * F * F * F).

(** [scipy.optimize.curve_fit(f, x, y, sigma = ..., absolute_sigma = ...)],
    unpacked as [popt, pcov]. *)
Variable curve_fit :
  (value F -> F -> F -> value F) -> list F -> list F ->
  option (list F) -> bool -> option (list F * list (list F)).

(** [odr.ODR(odr.RealData(x, y, sx = ..., sy = ...), odr.Model(f),
    beta0 = ...).run()] and the two attributes read from its output. *)
Variable Output : Type.
Variable beta : Output -> list F.
Variable cov_beta : Output -> list (list F).
Variable odr_run :
  (list F -> value F -> option (value F)) ->
  list F -> list F -> list F -> list F -> list F -> option Output.

(** The four numbers every cell prints: [popt[0]], [popt[1]], [perr[0]],
    [perr[1]].  Indexing past the end raises. *)
Record FitReport : Type := {
  m_fit : F;
  c_fit : F;
  m_err : F;
  c_err : F
}.

Definition report (popt perr : list F) : option FitReport :=
  m <- nth_error popt 0 ;;
  c <- nth_error popt 1 ;;
  me <- nth_error perr 0 ;;
  ce <- nth_error perr 1 ;;
  Some {| m_fit := m; c_fit := c; m_err := me; c_err := ce |}.

(** Section 2: [m, c, r, p, stderr = linregress(x, y)]. *)
Definition linregress_cell (x y : list F) : option (F * F * F * F * F) :=
  linregress x y.

(** Section 3: [popt, pcov = curve_fit(StrtLineModel, x, y)]. *)
Definition curve_fit_cell (x y : list F)
  : option (list F * list (list F) * FitReport) :=
  fit <- curve_fit StrtLineModel x y None false ;;
  let '(popt, pcov) := fit in
  rep <- report popt (perr pcov) ;;
  Some (popt, pcov, rep).

(** Section 4: [popt, pcov = curve_fit(StrtLineModel, x, y, sigma = yerror,
    absolute_sigma = True)]. *)
Definition curve_fit_sigma_cell (x y yerror : list F)
  : option (list F * list (list F) * FitReport) :=
  fit <- curve_fit StrtLineModel x y (Some yerror) true ;;
  let '(popt, pcov) := fit in
  rep <- report popt (perr pcov) ;;
  Some (popt, pcov, rep).

(** Section 5: the initial guess is [linregress(x, y)[0:2]]; the results
    are [result_outputs.beta] and the square roots of the diagonal of
    [result_outputs.cov_beta]. *)
Definition odr_cell (x y xerror yerror : list F)
  : option (list F * list F * FitReport) :=
  lin <- linregress x y ;;
  let '(m, c, _, _, _) := lin in
  let init_guess := [m; c] in
  result_outputs <- odr_run StrtLineModelOdr x y xerror yerror init_guess ;;
  let popt := beta result_outputs in
  let perr := np_sqrt (np_diag (cov_beta result_outputs)) in
  rep <- report popt perr ;;
  Some (popt, perr, rep).

End FittingCells.

(** ** Exact values of binary64 numbers

    A finite binary64 number is a signed integer times a power of two. *)

Definition value_of (f : float) : option Q :=
  match Prim2SF f with
  | S754_zero _ => Some 0%Q
  | S754_finite s m e =>
      Some ((if s then Qopp else (fun q => q)) ((Zpos m # 1) * Qpower 2 e)%Q)
  | S754_infinity _ => None
  | S754_nan => None
  end.

(** The value as a rational, [0] for NaN and the infinities. *)
Definition qval (f : float) : Q :=
  match value_of f with
  | Some v => v
  | None => 0%Q
  end.

Definition finite (f : float) : bool :=
  match value_of f with
  | Some _ => true
  | None => false
  end.

(** [agrees f q]: the number [f] is finite and its value is [q]. *)
Definition agrees (f : float) (q : Q) : bool :=
  match value_of f with
  | Some v => Qeq_bool v q
  | None => false
  end.

(** [x == 0.0] and [x <= 0.0], read off the classification of [x]. *)
Definition is_zero (f : float) : bool :=
  match Prim2SF f with
  | S754_zero _ => true
  | _ => false
  end.

Definition nonpositive (f : float) : bool :=
  match Prim2SF f with
  | S754_zero _ => true
  | S754_finite s _ _ => s
  | S754_infinity s => s
  | S754_nan => false
  end.

(** ** Arithmetic that watches for rounding

    A watched number is a binary64 number [fl], the rational [ex] that
    the same computation yields without rounding, and a flag [ok] that
    holds as long as every binary64 result so far was finite and equal
    to its unrounded counterpart. *)

Record watched : Type := {
  fl : float;
  ex : Q;
  ok : bool
}.

(** An input is taken at its own value. *)
Definition given (f : float) : watched :=
  {| fl := f; ex := qval f; ok := finite f |}.

Definition watch2 (fop : float -> float -> float) (qop : Q -> Q -> Q)
  (a b : watched) : watched :=
  let f := fop (fl a) (fl b) in
  let q := qop (ex a) (ex b) in
  {| fl := f; ex := q; ok := ok a && ok b && agrees f q |}.

(** A square root has no rational counterpart: its result is taken at
    its own value, like an input. *)
Definition watch_sqrt (a : watched) : watched :=
  let f := PrimFloat.sqrt (fl a) in
  {| fl := f; ex := qval f; ok := ok a && finite f |}.

#[export] Instance watching : Arith watched := {|
  f_add  := watch2 PrimFloat.add Qplus;
  f_sub  := watch2 PrimFloat.sub Qminus;
  f_mul  := watch2 PrimFloat.mul Qmult;
  f_sqrt := watch_sqrt
|}.

(** The confidence-limits cell at one abscissa incurs no rounding: run on
    watched inputs, its three evaluated lines come out with the flag
    still set. *)
Definition unrounded_limits (k m c sm sc x : float) : bool :=
  match confidence_limits (given k) [given m; given c]
                          [given sm; given sc] (Scalar (given x)) with
  | Some env =>
      match fit_upper env, y_fit env, fit_lower env with
      | Scalar u, Scalar f, Scalar l => ok u && ok f && ok l
      | _, _, _ => false
      end
  | None => false
  end.

(** ** The closed-form estimators of the specification

    [linregress] and [curve_fit] are library calls; the notebook has no
    code for them.  The specification describes both estimators by
    their closed forms, and these are what follows.  They need division,
    the constants [0] and [1], and the tests [== 0] and [<= 0]. *)

Class ArithDiv (F : Type) `{Arith F} : Type := {
  f_div  : F -> F -> F;
  f_zero : F;
  f_one  : F;
  f_is_zero : F -> bool;
  f_nonpositive : F -> bool
}.

#[export] Instance binary64_div : @ArithDiv PrimFloat.float binary64 := {|
  f_div  := PrimFloat.div;
  f_zero := 0%float;
  f_one  := 1%float;
  f_is_zero := is_zero;
  f_nonpositive := nonpositive
|}.

#[export] Instance watching_div : @ArithDiv watched watching := {|
  f_div  := watch2 PrimFloat.div Qdiv;
  f_zero := given 0%float;
  f_one  := given 1%float;
  f_is_zero := fun a => is_zero (fl a);
  f_nonpositive := fun a => nonpositive (fl a)
|}.

Section ClosedForms.
Context {F : Type} {A : Arith F} {D : @ArithDiv F A}.

(** The number of points as a number of the arithmetic. *)
Fixpoint f_of_nat (n : nat) : F :=
  match n with
  | O => f_zero
  | S n' => f_add (f_of_nat n') f_one
  end.

(** Sum of a sequence and element-wise product of two sequences. *)
Definition total (l : list F) : F := fold_right f_add f_zero l.

Definition products (a b : list F) : list F :=
  map (fun p => f_mul (fst p) (snd p)) (combine a b).

(** Modelled from the spec: the OLS estimator of section 4.2, whose code
    ([scipy.stats.linregress]) is not in the repository.  It is "the
    closed-form normal-equations solution" for the [(m, c)] minimising
    the sum of [(y - m*x - c)^2]:
    [m*Sxx + c*Sx = Sxy] and [m*Sx + c*N = Sy].  A singular system is
    "reported as a fit failure", as are sequences of unequal length.  The
    correlation coefficient and the slope error, for which the
    specification gives no formula, are not modelled. *)
Definition ols_fit (x y : list F) : option (F * F) :=
  if negb (Nat.eqb (length x) (length y)) then None
  else
    let n := f_of_nat (length x) in
    let sx := total x in
    let sy := total y in
    let sxx := total (products x x) in
    let sxy := total (products x y) in
    let det := f_sub (f_mul n sxx) (f_mul sx sx) in
    if f_is_zero det then None
    else Some (f_div (f_sub (f_mul n sxy) (f_mul sx sy)) det,
               f_div (f_sub (f_mul sxx sy) (f_mul sx sxy)) det).

(** Modelled from the spec: the WLS estimator of section 4.3, whose code
    ([scipy.optimize.curve_fit]) is not in the repository.  It is the
    closed form ("weighted normal equations") for the [(m, c)] minimising
    the sum of [((y - m*x - c)/sigma)^2], with weights [1/sigma^2], and
    it returns the parameters and "the 2x2 covariance matrix of (m, c) at
    the minimum", the inverse of the matrix of the normal equations.
    With [absolute_sigma] the covariance is returned as it is; without,
    it is "scaled by the reduced chi-square of the fit", the objective at
    the optimum divided by the [N - 2] degrees of freedom.  A zero or
    negative uncertainty is the invalid-uncertainty error, a singular
    system the fit failure. *)
Definition wls_fit (x y sigma : list F) (absolute_sigma : bool)
  : option (list F * list (list F)) :=
  if negb (Nat.eqb (length x) (length y) && Nat.eqb (length x) (length sigma))
  then None
  else if existsb f_nonpositive sigma then None
  else
    let w := map (fun s => f_div f_one (f_mul s s)) sigma in
    let sw := total w in
    let sx := total (products w x) in
    let sy := total (products w y) in
    let sxx := total (products w (products x x)) in
    let sxy := total (products w (products x y)) in
    let det := f_sub (f_mul sw sxx) (f_mul sx sx) in
    if f_is_zero det then None
    else
      let m := f_div (f_sub (f_mul sw sxy) (f_mul sx sy)) det in
      let c := f_div (f_sub (f_mul sxx sy) (f_mul sx sxy)) det in
      let vmm := f_div sw det in
      let vmc := f_div (f_sub f_zero sx) det in
      let vcc := f_div sxx det in
      if absolute_sigma then Some ([m; c], [[vmm; vmc]; [vmc; vcc]])
      else
        let res := map (fun p => f_sub (snd p) (line m c (fst p)))
                       (combine x y) in
        let chi2 := total (products w (products res res)) in
        let dof := f_sub (f_of_nat (length x)) (f_of_nat 2) in
        let s2 := f_div chi2 dof in
        Some ([m; c], [[f_mul vmm s2; f_mul vmc s2];
                       [f_mul vmc s2; f_mul vcc s2]]).

(** Modelled from the spec: [curve_fit] for the straight-line model, as
    the closed-form WLS estimator.  Without [sigma] every point has unit
    weight. *)
Definition curve_fit_closed_form
  (f : value F -> F -> F -> value F) (x y : list F)
  (sigma : option (list F)) (absolute_sigma : bool)
  : option (list F * list (list F)) :=
  match sigma with
  | Some s => wls_fit x y s absolute_sigma
  | None => wls_fit x y (map (fun _ => f_one) x) absolute_sigma
  end.

End ClosedForms.

(** The closed forms incur no rounding: run on watched inputs they
    return parameters with the flag still set. *)
Definition unrounded_ols (x y : list float) : bool :=
  match ols_fit (map given x) (map given y) with
  | Some (m, c) => ok m && ok c
  | None => false
  end.

Definition unrounded_wls (x y sigma : list float) : bool :=
  match wls_fit (map given x) (map given y) (map given sigma) true with
  | Some ([m; c], _) => ok m && ok c
  | _ => false
  end.

Arguments value_of : simpl never.
Arguments qval : simpl never.
Arguments finite : simpl never.
Arguments agrees : simpl never.

(** ** The notebook's cells on concrete binary64 data *)

Section Binary64Runs.
Open Scope float_scope.

(** The three points (0,1), (1,3), (2,5) lie on [y = 2x + 1]. *)
Example StrtLineModel_exact_line :
  StrtLineModel (Array [0; 1; 2]) 2 1 = Array [1; 3; 5].
Proof. reflexivity. Qed.

Example StrtLineModel_scalar_run :
  StrtLineModel (Scalar 1.5) 2 3 = Scalar 6.
Proof. reflexivity. Qed.

Example StrtLineModelOdr_run :
  StrtLineModelOdr [2; 3] (Array [0; 0.5]) = Some (Array [3; 4]).
Proof. reflexivity. Qed.

Example perr_run :
  perr [[0.25; -0.125]; [-0.125; 4]] = [0.5; 2].
Proof. reflexivity. Qed.

Example confidence_limits_run :
  confidence_limits 1 [2; 1] (perr [[0.25; -0.125]; [-0.125; 4]])
                    (Array [0; 1; 2])
  = Some {| popt_upper := [2.5; 3];
            popt_lower := [1.5; -1];
            y_fit      := Array [1; 3; 5];
            fit_upper  := Array [3; 5.5; 8];
            fit_lower  := Array [-1; 0.5; 2] |}.
Proof. reflexivity. Qed.

(** A covariance matrix that is not two by two does not match the two
    parameters unless it has a single entry, which NumPy stretches. *)
Example confidence_limits_shape_error :
  confidence_limits 1 [2; 1] (perr [[1; 0; 0]; [0; 1; 0]; [0; 0; 1]])
                    (Scalar 0) = None.
Proof. reflexivity. Qed.

(** The same fit further to the left: the limit lines meet at
    [x = -2/0.5 = -4] and have changed places at [x = -6]. *)
Example confidence_limits_crossing_run :
  confidence_limits 1 [2; 1] (perr [[0.25; -0.125]; [-0.125; 4]])
                    (Array [-6; -4; 0])
  = Some {| popt_upper := [2.5; 3];
            popt_lower := [1.5; -1];
            y_fit      := Array [-11; -7; 1];
            fit_upper  := Array [-12; -7; 3];
            fit_lower  := Array [-10; -7; -1] |}.
Proof. reflexivity. Qed.

(** Rounding: a slope that dwarfs its standard error absorbs the
    perturbation, so both limit lines keep the fitted slope and their
    values left of [x = -1] coincide. *)
Example confidence_limits_absorbed_run :
  confidence_limits 1 [1e20; 0] (perr [[1; 0]; [0; 1]]) (Array [-2; 0])
  = Some {| popt_upper := [1e20; 1];
            popt_lower := [1e20; -1];
            y_fit      := Array [-2e20; 0];
            fit_upper  := Array [-2e20; 1];
            fit_lower  := Array [-2e20; -1] |}.
Proof. reflexivity. Qed.

End Binary64Runs.

(** ** Properties that hold for every arithmetic *)

Section AnyArithmetic.
Context {F : Type} `{Arith F}.

Lemma StrtLineModel_Scalar (m c x : F) :
  StrtLineModel (Scalar x) m c = Scalar (line m c x).
Proof. reflexivity. Qed.

Lemma StrtLineModel_Array (m c : F) (xs : list F) :
  StrtLineModel (Array xs) m c = Array (map (line m c) xs).
Proof.
  unfold StrtLineModel, mul_scalar, add_scalar, line.
  now rewrite map_map.
Qed.

Lemma StrtLineModelOdr_StrtLineModel (m c : F) (x : value F) :
  StrtLineModelOdr [m; c] x = Some (StrtLineModel x m c).
Proof. reflexivity. Qed.

Lemma perr_2x2 (vmm vmc vcm vcc : F) :
  perr [[vmm; vmc]; [vcm; vcc]] = [f_sqrt vmm; f_sqrt vcc].
Proof. reflexivity. Qed.

Lemma confidence_limits_2 (k m c sm sc : F) (x : value F) :
  confidence_limits k [m; c] [sm; sc] x
  = Some {| popt_upper := [f_add m (f_mul k sm); f_add c (f_mul k sc)];
            popt_lower := [f_sub m (f_mul k sm); f_sub c (f_mul k sc)];
            y_fit := StrtLineModel x m c;
            fit_upper :=
              StrtLineModel x (f_add m (f_mul k sm)) (f_add c (f_mul k sc));
            fit_lower :=
              StrtLineModel x (f_sub m (f_mul k sm)) (f_sub c (f_mul k sc))
         |}.
Proof. reflexivity. Qed.

(** C9.  Calling [StrtLineModel] with a scalar [x] gives [m*x + c];
    calling it with the one-element array [[x]] gives the one-element
    array holding that same number; and on an array of any length the
    result has the same length and its [i]-th entry is what the scalar
    call returns on the [i]-th input. *)
Theorem StrtLineModel_scalar_or_sequence (m c x : F) (xs : list F) :
  StrtLineModel (Scalar x) m c = Scalar (f_add (f_mul m x) c) /\
  StrtLineModel (Array [x]) m c = Array [f_add (f_mul m x) c] /\
  exists ys,
    StrtLineModel (Array xs) m c = Array ys /\
    length ys = length xs /\
    forall i xi, nth_error xs i = Some xi ->
      exists yi, nth_error ys i = Some yi /\
                 StrtLineModel (Scalar xi) m c = Scalar yi.
Proof.
  split; [reflexivity | split; [reflexivity |]].
  exists (map (line m c) xs).
  split; [apply StrtLineModel_Array | split; [apply length_map |]].
  intros i xi Hi.
  exists (line m c xi). split.
  - now apply map_nth_error.
  - apply StrtLineModel_Scalar.
Qed.

(** C8.  On fitted parameters [popt = [m, c]], a two-by-two covariance
    matrix [pcov] and a multiplier [k], the confidence-limits cell
    succeeds and returns the upper parameters
    [(m + k*stderr_m, c + k*stderr_c)] and the lower parameters
    [(m - k*stderr_m, c - k*stderr_c)], where [stderr_m] and [stderr_c]
    are the square roots of the two diagonal entries of [pcov]. *)
Theorem confidence_limits_parameters
  (m c vmm vmc vcm vcc k : F) (x : value F) :
  exists env,
    confidence_limits k [m; c] (perr [[vmm; vmc]; [vcm; vcc]]) x = Some env /\
    popt_upper env =
      [f_add m (f_mul k (f_sqrt vmm)); f_add c (f_mul k (f_sqrt vcc))] /\
    popt_lower env =
      [f_sub m (f_mul k (f_sqrt vmm)); f_sub c (f_mul k (f_sqrt vcc))].
Proof.
  rewrite perr_2x2, confidence_limits_2.
  eexists. split; [reflexivity |]. split; reflexivity.
Qed.

End AnyArithmetic.

(** ** What the fitting cells add to the library calls *)

Section FittingCellFacts.
Context {F : Type} `{Arith F}.
Variable linregress : list F -> list F -> option (F * F * F * F * F).
Variable curve_fit :
  (value F -> F -> F -> value F) -> list F -> list F ->
  option (list F) -> bool -> option (list F * list (list F)).
Variable Output : Type.
Variable beta : Output -> list F.
Variable cov_beta : Output -> list (list F).
Variable odr_run :
  (list F -> value F -> option (value F)) ->
  list F -> list F -> list F -> list F -> list F -> option Output.

(** The weighted cell reports the square roots of the covariance diagonal
    next to the parameters the library returned. *)
Lemma curve_fit_sigma_cell_report
  (x y yerror : list F) (m c vmm vmc vcm vcc : F) :
  curve_fit StrtLineModel x y (Some yerror) true
    = Some ([m; c], [[vmm; vmc]; [vcm; vcc]]) ->
  curve_fit_sigma_cell curve_fit x y yerror
    = Some ([m; c], [[vmm; vmc]; [vcm; vcc]],
            {| m_fit := m; c_fit := c;
               m_err := f_sqrt vmm; c_err := f_sqrt vcc |}).
Proof.
  intros Hfit. unfold curve_fit_sigma_cell. now rewrite Hfit.
Qed.

(** The cell hands [yerror] to the library as it is and checks nothing
    itself: when the call raises, so does the cell. *)
Lemma curve_fit_sigma_cell_raises (x y yerror : list F) :
  curve_fit StrtLineModel x y (Some yerror) true = None ->
  curve_fit_sigma_cell curve_fit x y yerror = None.
Proof.
  intros Hfit. unfold curve_fit_sigma_cell. now rewrite Hfit.
Qed.

(** The orthogonal-distance cell starts the solver from the slope and the
    intercept of [linregress]; when the solver raises from there, so does
    the cell. *)
Lemma odr_cell_raises_from_guess
  (x y xerror yerror : list F) (m c r p stderr : F) :
  linregress x y = Some (m, c, r, p, stderr) ->
  odr_run StrtLineModelOdr x y xerror yerror [m; c] = None ->
  odr_cell linregress beta cov_beta odr_run x y xerror yerror = None.
Proof.
  intros Hlin Hrun. unfold odr_cell. rewrite Hlin. cbn. now rewrite Hrun.
Qed.

Lemma odr_cell_report
  (x y xerror yerror : list F) (m c r p stderr : F) (out : Output)
  (m' c' vmm vmc vcm vcc : F) :
  linregress x y = Some (m, c, r, p, stderr) ->
  odr_run StrtLineModelOdr x y xerror yerror [m; c] = Some out ->
  beta out = [m'; c'] ->
  cov_beta out = [[vmm; vmc]; [vcm; vcc]] ->
  odr_cell linregress beta cov_beta odr_run x y xerror yerror
    = Some ([m'; c'], [f_sqrt vmm; f_sqrt vcc],
            {| m_fit := m'; c_fit := c';
               m_err := f_sqrt vmm; c_err := f_sqrt vcc |}).
Proof.
  intros Hlin Hrun Hbeta Hcov. unfold odr_cell.
  rewrite Hlin. cbn. rewrite Hrun. cbn. now rewrite Hbeta, Hcov.
Qed.

End FittingCellFacts.

(** ** Calling conventions, shapes and failures, for every arithmetic *)

Section ShapesAndFailures.
Context {F : Type} `{Arith F}.

(** X1.  [StrtLineModelOdr(p, x)] and [StrtLineModel(x, *p)] are the same
    computation: they return the same value on a two-entry [p] and both
    raise on any other [p]. *)
Theorem StrtLineModelOdr_is_StrtLineModel_star (p : list F) (x : value F) :
  StrtLineModelOdr p x = StrtLineModel_star x p.
Proof.
  destruct p as [| m [| c [| d p]]]; reflexivity.
Qed.

Lemma shape_StrtLineModel (x : value F) (m c : F) :
  shape (StrtLineModel x m c) = shape x.
Proof.
  destruct x as [a | l]; [reflexivity |].
  rewrite StrtLineModel_Array. cbn. now rewrite length_map.
Qed.

Lemma confidence_limits_no_line (k : F) (popt perr : list F) (x : value F) :
  StrtLineModel_star x popt = None ->
  confidence_limits k popt perr x = None.
Proof.
  intros Hstar. unfold confidence_limits.
  destruct (broadcast f_add popt (scale k perr)); [| reflexivity].
  destruct (broadcast f_sub popt (scale k perr)); [| reflexivity].
  cbn. now rewrite Hstar.
Qed.

(** Success of the cell pins down the shapes of its two inputs. *)
Lemma confidence_limits_inv
  (k : F) (popt perr : list F) (x : value F) (env : ConfidenceEnvelope F) :
  confidence_limits k popt perr x = Some env ->
  exists m c, popt = [m; c] /\
    ((exists s, perr = [s] /\
        env = {| popt_upper := [f_add m (f_mul k s); f_add c (f_mul k s)];
                 popt_lower := [f_sub m (f_mul k s); f_sub c (f_mul k s)];
                 y_fit := StrtLineModel x m c;
                 fit_upper :=
                   StrtLineModel x (f_add m (f_mul k s)) (f_add c (f_mul k s));
                 fit_lower :=
                   StrtLineModel x (f_sub m (f_mul k s)) (f_sub c (f_mul k s))
              |}) \/
     (exists sm sc, perr = [sm; sc] /\
        env = {| popt_upper := [f_add m (f_mul k sm); f_add c (f_mul k sc)];
                 popt_lower := [f_sub m (f_mul k sm); f_sub c (f_mul k sc)];
                 y_fit := StrtLineModel x m c;
                 fit_upper :=
                   StrtLineModel x (f_add m (f_mul k sm)) (f_add c (f_mul k sc));
                 fit_lower :=
                   StrtLineModel x (f_sub m (f_mul k sm)) (f_sub c (f_mul k sc))
              |})).
Proof.
  intros Hrun.
  destruct popt as [| m [| c [| d popt]]];
    try (rewrite confidence_limits_no_line in Hrun by reflexivity;
         discriminate).
  exists m, c. split; [reflexivity |].
  destruct perr as [| s1 [| s2 [| s3 perr]]]; cbn in Hrun;
    try discriminate.
  - left. exists s1. split; [reflexivity |]. now inversion Hrun.
  - right. exists s1, s2. split; [reflexivity |]. now inversion Hrun.
Qed.

(** X2.  The confidence-limits cell runs through exactly when [popt] has two
    entries and [perr] has one or two (a single entry is stretched over
    both parameters); every other combination of lengths raises. *)
Theorem confidence_limits_succeeds_iff
  (k : F) (popt perr : list F) (x : value F) :
  (exists env, confidence_limits k popt perr x = Some env) <->
  length popt = 2 /\ (length perr = 1 \/ length perr = 2).
Proof.
  split.
  - intros [env Hrun].
    destruct (confidence_limits_inv _ _ _ _ Hrun)
      as (m & c & -> & [(s & -> & _) | (sm & sc & -> & _)]);
      cbn; auto.
  - intros [Hpopt Hperr].
    destruct popt as [| m [| c [| d popt]]]; try discriminate.
    destruct perr as [| s1 [| s2 [| s3 perr]]];
      try (destruct Hperr; discriminate); eexists; reflexivity.
Qed.

(** X3.  Whenever the cell runs through, both parameter limits have two
    entries and each of the three evaluated lines has the shape of [x]:
    a scalar stays a scalar, an array keeps its length. *)
Theorem confidence_limits_shapes
  (k : F) (popt perr : list F) (x : value F) (env : ConfidenceEnvelope F) :
  confidence_limits k popt perr x = Some env ->
  length (popt_upper env) = 2 /\
  length (popt_lower env) = 2 /\
  shape (y_fit env) = shape x /\
  shape (fit_upper env) = shape x /\
  shape (fit_lower env) = shape x.
Proof.
  intros Hrun.
  destruct (confidence_limits_inv _ _ _ _ Hrun)
    as (m & c & _ & [(s & _ & ->) | (sm & sc & _ & ->)]);
    cbn [popt_upper popt_lower y_fit fit_upper fit_lower];
    rewrite !shape_StrtLineModel; repeat split; reflexivity.
Qed.

End ShapesAndFailures.

Lemma confidence_limits_shapes_witness :
  exists env,
    confidence_limits 1%float [2; 1]%float [0.5]%float
                      (Array [0; 1; 2]%float) = Some env /\
    length (popt_upper env) = 2 /\
    length (popt_lower env) = 2 /\
    shape (y_fit env) = shape (Array [0; 1; 2]%float) /\
    shape (fit_upper env) = shape (Array [0; 1; 2]%float) /\
    shape (fit_lower env) = shape (Array [0; 1; 2]%float).
Proof.
  eexists. split; [reflexivity |].
  apply (@confidence_limits_shapes _ _ 1%float [2; 1]%float [0.5]%float
           (Array [0; 1; 2]%float)).
  reflexivity.
Defined.

(** ** Standard errors and the printed numbers *)

Section StandardErrors.
Context {F : Type} `{Arith F}.

(** The diagonal walk on rows that are all long enough. *)
Lemma diag_from_rows (n : nat) (rows : list (list F)) :
  Forall (fun r => length r = n) rows ->
  forall j, j + length rows <= n ->
    length (diag_from j rows) = length rows /\
    forall i r, nth_error rows i = Some r ->
      exists a, nth_error r (j + i) = Some a /\
                nth_error (diag_from j rows) i = Some a.
Proof.
  induction 1 as [| r rs Hr Hrs IH]; intros j Hj.
  - split; [reflexivity |]. intros [| i] r Hi; discriminate.
  - cbn [length] in Hj.
    destruct (nth_error r j) as [a |] eqn:Ha.
    2: { apply nth_error_None in Ha. lia. }
    destruct (IH (S j)) as [Hlen Hnth]; [lia |].
    cbn [diag_from]. rewrite Ha. split.
    + cbn [length]. now rewrite Hlen.
    + intros [| i] r' Hi.
      * cbn in Hi. injection Hi as <-. exists a.
        rewrite Nat.add_0_r. now split.
      * cbn in Hi. destruct (Hnth i r' Hi) as (a' & Ha' & Hd).
        exists a'. rewrite Nat.add_succ_r. now split.
Qed.

Lemma perr_entry (pcov : list (list F)) :
  Forall (fun r => length r = length pcov) pcov ->
  length (perr pcov) = length pcov /\
  forall i r, nth_error pcov i = Some r ->
    exists a, nth_error r i = Some a /\
              nth_error (perr pcov) i = Some (f_sqrt a).
Proof.
  intros Hsq.
  destruct (diag_from_rows Hsq 0) as [Hlen Hnth]; [lia |].
  unfold perr, np_sqrt, np_diag. split.
  - now rewrite length_map.
  - intros i r Hi. destruct (Hnth i r Hi) as (a & Ha & Hd).
    exists a. split; [exact Ha |]. now apply map_nth_error.
Qed.

(** X4.  For a square covariance matrix of any size, [perr] has one entry per
    parameter, and its [i]-th entry is [np.sqrt] of the [i]-th diagonal
    entry of the matrix. *)
Theorem perr_of_square_matrix (pcov : list (list F)) :
  Forall (fun r => length r = length pcov) pcov ->
  length (perr pcov) = length pcov /\
  forall i r, nth_error pcov i = Some r ->
    exists a, nth_error r i = Some a /\
              nth_error (perr pcov) i = Some (f_sqrt a).
Proof.
  intros Hsq.
  destruct (diag_from_rows Hsq 0) as [Hlen Hnth]; [lia |].
  unfold perr, np_sqrt, np_diag. split.
  - now rewrite length_map.
  - intros i r Hi. destruct (Hnth i r Hi) as (a & Ha & Hd).
    exists a. split; [exact Ha |]. now apply map_nth_error.
Qed.

(** X6.  [m_fit, c_fit, m_err, c_err] are read at indices 0 and 1: the
    extraction succeeds exactly when [popt] and [perr] both have at least
    two entries, returns their first two entries, and ignores the rest. *)
Theorem report_some_iff (popt perr : list F) (rep : @FitReport F) :
  report popt perr = Some rep <->
  exists m c tp me ce te,
    popt = m :: c :: tp /\ perr = me :: ce :: te /\
    rep = {| m_fit := m; c_fit := c; m_err := me; c_err := ce |}.
Proof.
  split.
  - destruct popt as [| m [| c tp]]; cbn; try discriminate;
      destruct perr as [| me [| ce te]]; cbn; try discriminate.
    intros [= <-]. now exists m, c, tp, me, ce, te.
  - intros (m & c & tp & me & ce & te & -> & -> & ->). reflexivity.
Qed.

End StandardErrors.

Lemma perr_of_square_matrix_witness :
  Forall (fun r => length r = 3)
         [[4; 1; 0]; [1; 9; 0]; [0; 0; 16]]%float /\
  (length (perr [[4; 1; 0]; [1; 9; 0]; [0; 0; 16]]%float) = 3 /\
   forall i r,
     nth_error [[4; 1; 0]; [1; 9; 0]; [0; 0; 16]]%float i = Some r ->
     exists a, nth_error r i = Some a /\
       nth_error (perr [[4; 1; 0]; [1; 9; 0]; [0; 0; 16]]%float) i
         = Some (f_sqrt a)).
Proof.
  assert (Hsq : Forall (fun r : list float => length r = 3)
                  [[4; 1; 0]; [1; 9; 0]; [0; 0; 16]]%float)
    by (repeat constructor).
  split; [exact Hsq |].
  exact (@perr_of_square_matrix _ _
           [[4; 1; 0]; [1; 9; 0]; [0; 0; 16]]%float Hsq).
Defined.

(** ** How the cells feed each other *)

Section CellPipelines.
Context {F : Type} `{Arith F}.

(** X12.  Sections 4 and 4.2 run in sequence: when [curve_fit] returns two
    parameters and a two-by-two covariance matrix, the weighted cell
    reports [m_fit], [c_fit], [m_err], [c_err], and the confidence-limits
    cell that follows returns exactly the printed fit plus and minus
    [nstd] times the printed errors. *)
Theorem weighted_fit_then_limits
  (curve_fit :
     (value F -> F -> F -> value F) -> list F -> list F ->
     option (list F) -> bool -> option (list F * list (list F)))
  (x y yerror : list F) (m c vmm vmc vcm vcc k : F) :
  curve_fit StrtLineModel x y (Some yerror) true
    = Some ([m; c], [[vmm; vmc]; [vcm; vcc]]) ->
  exists rep env,
    curve_fit_sigma_cell curve_fit x y yerror
      = Some ([m; c], [[vmm; vmc]; [vcm; vcc]], rep) /\
    confidence_limits k [m; c] (perr [[vmm; vmc]; [vcm; vcc]]) (Array x)
      = Some env /\
    popt_upper env = [f_add (m_fit rep) (f_mul k (m_err rep));
                      f_add (c_fit rep) (f_mul k (c_err rep))] /\
    popt_lower env = [f_sub (m_fit rep) (f_mul k (m_err rep));
                      f_sub (c_fit rep) (f_mul k (c_err rep))].
Proof.
  intros Hfit.
  exists {| m_fit := m; c_fit := c;
            m_err := f_sqrt vmm; c_err := f_sqrt vcc |}.
  rewrite perr_2x2, confidence_limits_2. eexists.
  split.
  - unfold curve_fit_sigma_cell. now rewrite Hfit.
  - split; [reflexivity |]. split; reflexivity.
Qed.

(** X13.  The orthogonal-distance cell takes nothing from [linregress] but the
    slope and the intercept: two regressions that agree on these (or both
    raise) give the same outcome of the cell, whatever their [r], [p] and
    [stderr]. *)
Theorem odr_cell_uses_slope_and_intercept
  (linregress linregress' : list F -> list F -> option (F * F * F * F * F))
  (Output : Type) (beta : Output -> list F)
  (cov_beta : Output -> list (list F))
  (odr_run :
     (list F -> value F -> option (value F)) ->
     list F -> list F -> list F -> list F -> list F -> option Output)
  (x y xerror yerror : list F) :
  option_map (fun t => let '(m, c, _, _, _) := t in (m, c)) (linregress x y)
  = option_map (fun t => let '(m, c, _, _, _) := t in (m, c))
               (linregress' x y) ->
  odr_cell linregress beta cov_beta odr_run x y xerror yerror
  = odr_cell linregress' beta cov_beta odr_run x y xerror yerror.
Proof.
  intros Hsame. unfold odr_cell.
  destruct (linregress x y) as [[[[[m c] r] p] s] |];
    destruct (linregress' x y) as [[[[[m' c'] r'] p'] s'] |];
    cbn in Hsame; try discriminate; [| reflexivity].
  injection Hsame as -> ->. reflexivity.
Qed.

End CellPipelines.

Lemma weighted_fit_then_limits_witness :
  (fun _ _ _ _ _ => Some ([2; 1]%float, [[0.25; 0]; [0; 4]]%float))
    StrtLineModel [0; 1; 2]%float [1; 3; 5]%float
    (Some [1; 1; 1]%float) true
  = Some ([2; 1]%float, [[0.25; 0]; [0; 4]]%float) /\
  exists rep env,
    curve_fit_sigma_cell
      (fun _ _ _ _ _ => Some ([2; 1]%float, [[0.25; 0]; [0; 4]]%float))
      [0; 1; 2]%float [1; 3; 5]%float [1; 1; 1]%float
      = Some ([2; 1]%float, [[0.25; 0]; [0; 4]]%float, rep) /\
    confidence_limits 1%float [2; 1]%float
      (perr [[0.25; 0]; [0; 4]]%float) (Array [0; 1; 2]%float)
      = Some env /\
    popt_upper env = [f_add (m_fit rep) (f_mul 1%float (m_err rep));
                      f_add (c_fit rep) (f_mul 1%float (c_err rep))] /\
    popt_lower env = [f_sub (m_fit rep) (f_mul 1%float (m_err rep));
                      f_sub (c_fit rep) (f_mul 1%float (c_err rep))].
Proof.
  split; [reflexivity |].
  exact (@weighted_fit_then_limits _ _
           (fun _ _ _ _ _ => Some ([2; 1]%float, [[0.25; 0]; [0; 4]]%float))
           [0; 1; 2]%float [1; 3; 5]%float [1; 1; 1]%float
           2%float 1%float 0.25%float 0%float 0%float 4%float 1%float
           eq_refl).
Defined.

Lemma odr_cell_uses_slope_and_intercept_witness :
  option_map (fun t => let '(m, c, _, _, _) := t in (m, c))
    ((fun _ _ => Some (2, 1, 1, 0, 0)%float) [0; 1]%float [1; 3]%float)
  = option_map (fun t => let '(m, c, _, _, _) := t in (m, c))
    ((fun _ _ => Some (2, 1, 0.5, 0.25, 0.125)%float)
       [0; 1]%float [1; 3]%float) /\
  odr_cell (fun _ _ => Some (2, 1, 1, 0, 0)%float)
           fst snd
           (fun _ _ _ _ _ beta0 => Some (beta0, [[0.25; 0]; [0; 4]]%float))
           [0; 1]%float [1; 3]%float [1; 1]%float [1; 1]%float
  = odr_cell (fun _ _ => Some (2, 1, 0.5, 0.25, 0.125)%float)
           fst snd
           (fun _ _ _ _ _ beta0 => Some (beta0, [[0.25; 0]; [0; 4]]%float))
           [0; 1]%float [1; 3]%float [1; 1]%float [1; 1]%float.
Proof.
  split; [reflexivity |].
  exact (@odr_cell_uses_slope_and_intercept _ _
           (fun _ _ => Some (2, 1, 1, 0, 0)%float)
           (fun _ _ => Some (2, 1, 0.5, 0.25, 0.125)%float)
           (list float * list (list float)) fst snd
           (fun _ _ _ _ _ beta0 => Some (beta0, [[0.25; 0]; [0; 4]]%float))
           [0; 1]%float [1; 3]%float [1; 1]%float [1; 1]%float
           eq_refl).
Defined.

(** ** The limit lines where nothing rounds *)

Section Rounding.
Open Scope Q_scope.

Lemma agrees_qval (f : float) (q : Q) :
  agrees f q = true -> qval f == q /\ finite f = true.
Proof.
  unfold agrees, qval, finite.
  destruct (value_of f) as [v |]; [| discriminate].
  intros Hv. split; [now apply Qeq_bool_eq | reflexivity].
Qed.

Ltac split_flags :=
  repeat match goal with
         | H : (_ && _)%bool = true |- _ =>
             apply andb_prop in H; destruct H
         end.

Ltac read_values :=
  repeat match goal with
         | H : agrees _ _ = true |- _ =>
             apply agrees_qval in H; destruct H
         end.

Lemma left_of_crossing (sm sc x : Q) :
  0 < sm -> x < - sc / sm -> sm * x + sc < 0.
Proof.
  intros Hsm Hx.
  assert (Hm : x * sm < - sc).
  { apply (Qmult_lt_compat_r _ _ sm) in Hx; [| exact Hsm].
    assert (He : - sc / sm * sm == - sc) by (field; lra).
    lra. }
  lra.
Qed.

Lemma at_crossing (sm sc x : Q) :
  0 < sm -> x == - sc / sm -> sm * x + sc == 0.
Proof.
  intros Hsm Hx. rewrite Hx. field. lra.
Qed.

(** What the three lines are worth when the flag survives. *)
Lemma unrounded_limits_values (k m c sm sc x : float) :
  unrounded_limits k m c sm sc x = true ->
  let u := line (f_add m (f_mul k sm)) (f_add c (f_mul k sc)) x in
  let f := line m c x in
  let l := line (f_sub m (f_mul k sm)) (f_sub c (f_mul k sc)) x in
  (finite u = true /\ finite f = true /\ finite l = true) /\
  qval u == (qval m + qval k * qval sm) * qval x
            + (qval c + qval k * qval sc) /\
  qval f == qval m * qval x + qval c /\
  qval l == (qval m - qval k * qval sm) * qval x
            + (qval c - qval k * qval sc).
Proof.
  unfold unrounded_limits. rewrite confidence_limits_2.
  cbn. intros Hok. split_flags. read_values.
  unfold line; cbn.
  repeat split; assumption.
Qed.




(** X14.  Where the binary64 evaluation of the three lines rounds
    nowhere, the band is centred on the fitted line: the upper value
    exceeds the fitted value, and the fitted value exceeds the lower
    value, by the same amount [nstd * (m_err * x + c_err)]. *)
Theorem band_centred_unrounded (m c sm sc k x : float) :
  unrounded_limits k m c sm sc x = true ->
  exists env u f l,
    confidence_limits k [m; c] [sm; sc] (Scalar x) = Some env /\
    fit_upper env = Scalar u /\
    y_fit env = Scalar f /\
    fit_lower env = Scalar l /\
    qval u - qval f == qval k * (qval sm * qval x + qval sc) /\
    qval f - qval l == qval k * (qval sm * qval x + qval sc).
Proof.
  intros Hok. rewrite confidence_limits_2.
  destruct (unrounded_limits_values _ _ _ _ _ _ Hok)
    as (_ & Hu & Hf & Hl).
  eexists. do 3 eexists.
  split; [reflexivity |].
  do 3 (split; [reflexivity |]).
  rewrite Hu, Hf, Hl. split; ring.
Qed.

Lemma band_centred_unrounded_witness :
  unrounded_limits 1 2 1 0.5 2 (-6) = true /\
  exists env u f l,
    confidence_limits 1%float [2; 1]%float [0.5; 2]%float
                      (Scalar (-6)%float) = Some env /\
    fit_upper env = Scalar u /\
    y_fit env = Scalar f /\
    fit_lower env = Scalar l /\
    qval u - qval f
      == qval 1%float * (qval 0.5%float * qval (-6)%float + qval 2%float) /\
    qval f - qval l
      == qval 1%float * (qval 0.5%float * qval (-6)%float + qval 2%float).
Proof.
  assert (Hok : unrounded_limits 1 2 1 0.5 2 (-6) = true)
    by (vm_compute; reflexivity).
  split; [exact Hok |].
  exact (@band_centred_unrounded 2 1 0.5 2 1 (-6) Hok).
Defined.

End Rounding.

(** ** What the fitting cells do with the solver's output *)

(** C4.  The fitting cells hand on whatever the solver
    returns.  When [curve_fit] returns two parameters and a two-by-two
    covariance matrix, the weighted cell reports them together with
    [np.sqrt] of the diagonal, whatever the entries are; when [curve_fit]
    raises, the cell raises.  The orthogonal-distance cell does the same
    with [beta] and [cov_beta] of the output of [odr.run()].  Neither
    cell reads a convergence flag or tests an entry for finiteness. *)
Theorem cells_hand_on_solver_output (F : Type) (A : Arith F) :
  (forall (curve_fit :
             (value F -> F -> F -> value F) -> list F -> list F ->
             option (list F) -> bool -> option (list F * list (list F)))
          (x y yerror : list F),
     (curve_fit StrtLineModel x y (Some yerror) true = None ->
      curve_fit_sigma_cell curve_fit x y yerror = None) /\
     (forall m c vmm vmc vcm vcc : F,
        curve_fit StrtLineModel x y (Some yerror) true
          = Some ([m; c], [[vmm; vmc]; [vcm; vcc]]) ->
        curve_fit_sigma_cell curve_fit x y yerror
          = Some ([m; c], [[vmm; vmc]; [vcm; vcc]],
                  {| m_fit := m; c_fit := c;
                     m_err := f_sqrt vmm; c_err := f_sqrt vcc |}))) /\
  (forall (linregress : list F -> list F -> option (F * F * F * F * F))
          (Output : Type) (beta : Output -> list F)
          (cov_beta : Output -> list (list F))
          (odr_run :
             (list F -> value F -> option (value F)) ->
             list F -> list F -> list F -> list F -> list F ->
             option Output)
          (x y xerror yerror : list F) (m c r p stderr : F),
     linregress x y = Some (m, c, r, p, stderr) ->
     (odr_run StrtLineModelOdr x y xerror yerror [m; c] = None ->
      odr_cell linregress beta cov_beta odr_run x y xerror yerror = None) /\
     (forall (out : Output) (m' c' vmm vmc vcm vcc : F),
        odr_run StrtLineModelOdr x y xerror yerror [m; c] = Some out ->
        beta out = [m'; c'] ->
        cov_beta out = [[vmm; vmc]; [vcm; vcc]] ->
        odr_cell linregress beta cov_beta odr_run x y xerror yerror
          = Some ([m'; c'], [f_sqrt vmm; f_sqrt vcc],
                  {| m_fit := m'; c_fit := c';
                     m_err := f_sqrt vmm; c_err := f_sqrt vcc |}))).
Proof.
  split.
  - intros curve_fit x y yerror. split.
    + apply curve_fit_sigma_cell_raises.
    + intros m c vmm vmc vcm vcc. apply curve_fit_sigma_cell_report.
  - intros linregress Output beta cov_beta odr_run x y xerror yerror
           m c r p stderr Hlin. split.
    + intros Hrun. eapply odr_cell_raises_from_guess; eassumption.
    + intros out m' c' vmm vmc vcm vcc Hrun Hbeta Hcov.
      eapply odr_cell_report; eassumption.
Qed.

(** The theorem at a solver that returns a covariance matrix filled with
    infinity: the weighted cell reports infinite errors. *)
Lemma cells_hand_on_solver_output_witness :
  (fun _ _ _ _ _ =>
     Some ([1; 1]%float, [[infinity; infinity]; [infinity; infinity]]))
    (@StrtLineModel float binary64) [1; 1; 1]%float [2; 3; 4]%float
    (Some [1; 1; 1]%float) true
  = Some ([1; 1]%float, [[infinity; infinity]; [infinity; infinity]]) /\
  curve_fit_sigma_cell
    (fun _ _ _ _ _ =>
       Some ([1; 1]%float, [[infinity; infinity]; [infinity; infinity]]))
    [1; 1; 1]%float [2; 3; 4]%float [1; 1; 1]%float
  = Some ([1; 1]%float, [[infinity; infinity]; [infinity; infinity]],
          {| m_fit := 1%float; c_fit := 1%float;
             m_err := f_sqrt infinity; c_err := f_sqrt infinity |}).
Proof.
  split; [reflexivity |].
  exact (proj2 (proj1 (cells_hand_on_solver_output binary64)
                  (fun _ _ _ _ _ =>
                     Some ([1; 1]%float,
                           [[infinity; infinity]; [infinity; infinity]]))
                  [1; 1; 1]%float [2; 3; 4]%float [1; 1; 1]%float)
           1%float 1%float infinity infinity infinity infinity eq_refl).
Defined.

(** The claim's last clause fails on both cells: a solver that returns a
    covariance matrix filled with infinity (what a singular Jacobian
    leaves behind) gets a result out of the cell, with non-finite
    covariance entries and non-finite reported errors. *)
Lemma cells_report_non_finite_covariance :
  ~ (forall curve_fit (x y yerror popt : list float) pcov rep,
       curve_fit_sigma_cell curve_fit x y yerror = Some (popt, pcov, rep) ->
       Forall (Forall (fun a => PrimFloat.is_finite a = true)) pcov /\
       PrimFloat.is_finite (m_err rep) = true) /\
  ~ (forall linregress (Output : Type) (beta : Output -> list float)
            (cov_beta : Output -> list (list float)) odr_run
            (x y xerror yerror popt perr : list float) rep,
       odr_cell linregress beta cov_beta odr_run x y xerror yerror
         = Some (popt, perr, rep) ->
       Forall (fun a => PrimFloat.is_finite a = true) perr /\
       PrimFloat.is_finite (m_err rep) = true).
Proof.
  split.
  - intros Hall.
    destruct (Hall
      (fun _ _ _ _ _ =>
         Some ([1; 1]%float, [[infinity; infinity]; [infinity; infinity]]))
      [1; 1; 1]%float [2; 3; 4]%float [1; 1; 1]%float _ _ _ eq_refl)
      as [_ Hfin].
    vm_compute in Hfin. discriminate.
  - intros Hall.
    destruct (Hall
      (fun _ _ => Some (1, 1, 0, 1, 0)%float)
      (list float * list (list float))%type fst snd
      (fun _ _ _ _ _ beta0 =>
         Some (beta0, [[infinity; infinity]; [infinity; infinity]]))
      [1; 1; 1]%float [2; 3; 4]%float [1; 1; 1]%float [1; 1; 1]%float
      _ _ _ eq_refl)
      as [_ Hfin].
    vm_compute in Hfin. discriminate.
Qed.

(** ** The closed-form estimators on points of a line *)

Section ClosedFormFacts.
Open Scope Q_scope.

Ltac split_flags :=
  repeat match goal with
         | H : (_ && _)%bool = true |- _ =>
             apply andb_prop in H; destruct H
         end.

Lemma qval_0 : qval 0%float == 0.
Proof. vm_compute. reflexivity. Qed.

Lemma qval_1 : qval 1%float == 1.
Proof. vm_compute. reflexivity. Qed.

(** A number that is not zero has a value that is not zero. *)
Lemma agrees_not_zero (f : float) (q : Q) :
  agrees f q = true -> is_zero f = false -> ~ q == 0.
Proof.
  unfold agrees, value_of, is_zero.
  destruct (Prim2SF f) as [s | s | | s m e]; try discriminate.
  intros Hq _ Hz. apply Qeq_bool_eq in Hq. rewrite Hz in Hq.
  assert (Hpos : 0 < (Zpos m # 1) * Qpower 2 e).
  { apply Qmult_lt_0_compat; [reflexivity |].
    apply Qpower_0_lt. reflexivity. }
  destruct s; lra.
Qed.

(** The binary64 run is the [fl] part of the watched run. *)
Lemma fl_total (ts : list watched) : fl (total ts) = total (map fl ts).
Proof.
  unfold total. induction ts as [| t ts IH]; [reflexivity |].
  cbn. f_equal. exact IH.
Qed.

Lemma fl_products (a b : list watched) :
  map fl (products a b) = products (map fl a) (map fl b).
Proof.
  revert b. induction a as [| t a IH]; intros [| u b]; try reflexivity.
  cbn. f_equal. apply IH.
Qed.

Lemma fl_of_nat (n : nat) : fl (f_of_nat n) = f_of_nat n.
Proof.
  induction n as [| n IH]; [reflexivity |]. cbn. f_equal. exact IH.
Qed.

Lemma fl_given (xs : list float) : map fl (map given xs) = xs.
Proof.
  induction xs as [| x xs IH]; [reflexivity |]. cbn. now rewrite IH.
Qed.

Lemma ols_fit_fl (ts us : list watched) :
  ols_fit (map fl ts) (map fl us)
  = option_map (fun r => (fl (fst r), fl (snd r))) (ols_fit ts us).
Proof.
  unfold ols_fit. rewrite !length_map.
  destruct (negb (length ts =? length us)%nat); [reflexivity |].
  rewrite <- !fl_products, <- !fl_total, <- fl_of_nat.
  cbn.
  destruct (is_zero _); reflexivity.
Qed.

(** The unrounded sums, one element at a time. *)
Lemma ex_total_cons (t : watched) (ts : list watched) :
  ex (total (t :: ts)) = ex t + ex (total ts).
Proof. reflexivity. Qed.

Lemma ex_total_nil : ex (total (@nil watched)) = qval 0%float.
Proof. reflexivity. Qed.

Lemma ex_of_nat_S (n : nat) :
  ex (f_of_nat (S n)) = ex (f_of_nat n) + qval 1%float.
Proof. reflexivity. Qed.

Lemma ex_of_nat_0 : ex (f_of_nat 0) = qval 0%float.
Proof. reflexivity. Qed.

Lemma products_cons (t u : watched) (ts us : list watched) :
  products (t :: ts) (u :: us) = f_mul t u :: products ts us.
Proof. reflexivity. Qed.

Lemma ex_mul (t u : watched) : ex (f_mul t u) = ex t * ex u.
Proof. reflexivity. Qed.

Lemma ols_sums (x y : list float) (m0 c0 : Q) :
  Forall2 (fun xi yi => qval yi == m0 * qval xi + c0) x y ->
  ex (total (map given y))
    == m0 * ex (total (map given x)) + c0 * ex (f_of_nat (length x)) /\
  ex (total (products (map given x) (map given y)))
    == m0 * ex (total (products (map given x) (map given x)))
       + c0 * ex (total (map given x)).
Proof.
  induction 1 as [| xi yi x y Hxy _ [IHy IHxy]].
  - cbn [map length products combine]. rewrite !ex_total_nil, ex_of_nat_0.
    rewrite qval_0. split; ring.
  - cbn [map length]. rewrite !products_cons, !ex_total_cons, ex_of_nat_S.
    rewrite !ex_mul. cbn [ex given]. rewrite IHy, IHxy, Hxy, qval_1.
    split; ring.
Qed.

Lemma wls_sums (x y : list float) (m0 c0 : Q) :
  Forall2 (fun xi yi => qval yi == m0 * qval xi + c0) x y ->
  forall w : list watched, length w = length x ->
  ex (total (products w (map given y)))
    == m0 * ex (total (products w (map given x))) + c0 * ex (total w) /\
  ex (total (products w (products (map given x) (map given y))))
    == m0 * ex (total (products w (products (map given x) (map given x))))
       + c0 * ex (total (products w (map given x))).
Proof.
  induction 1 as [| xi yi x y Hxy _ IH]; intros [| wi w] Hlen;
    try discriminate.
  - cbn [map products combine]. rewrite !ex_total_nil, qval_0. split; ring.
  - destruct (IH w) as [IHy IHxy]; [now injection Hlen |].
    cbn [map]. rewrite !products_cons, !ex_total_cons, !ex_mul.
    cbn [ex given]. rewrite IHy, IHxy, Hxy. split; ring.
Qed.

Lemma recover (s sx sy sxx sxy m0 c0 : Q) :
  sy == m0 * sx + c0 * s ->
  sxy == m0 * sxx + c0 * sx ->
  ~ s * sxx - sx * sx == 0 ->
  (s * sxy - sx * sy) / (s * sxx - sx * sx) == m0 /\
  (sxx * sy - sx * sxy) / (s * sxx - sx * sx) == c0.
Proof.
  intros Hy Hxy Hdet. rewrite Hy, Hxy. split; field; exact Hdet.
Qed.


Lemma existsb_fl (ss : list watched) :
  existsb f_nonpositive (map fl ss) = existsb f_nonpositive ss.
Proof.
  induction ss as [| a ss IH]; [reflexivity |]. cbn. f_equal. exact IH.
Qed.

Lemma fl_weights (ss : list watched) :
  map fl (map (fun s => f_div f_one (f_mul s s)) ss)
  = map (fun s => f_div f_one (f_mul s s)) (map fl ss).
Proof.
  induction ss as [| a ss IH]; [reflexivity |]. cbn. f_equal. exact IH.
Qed.

Lemma wls_fit_fl (ts us ss : list watched) :
  wls_fit (map fl ts) (map fl us) (map fl ss) true
  = option_map (fun r => (map fl (fst r), map (map fl) (snd r)))
               (wls_fit ts us ss true).
Proof.
  unfold wls_fit. rewrite !length_map, existsb_fl.
  destruct (negb _); [reflexivity |].
  destruct (existsb _ _); [reflexivity |].
  rewrite <- fl_weights, <- !fl_products, <- !fl_total.
  cbn.
  destruct (is_zero _); reflexivity.
Qed.

Lemma ols_recovers (x y : list float) (m0 c0 : Q) :
  Forall2 (fun xi yi => qval yi == m0 * qval xi + c0) x y ->
  unrounded_ols x y = true ->
  exists m c, ols_fit x y = Some (m, c) /\ qval m == m0 /\ qval c == c0.
Proof.
  intros Hline Hok. unfold unrounded_ols in Hok.
  pose proof (ols_fit_fl (map given x) (map given y)) as Hfl.
  rewrite !fl_given in Hfl.
  destruct (ols_sums Hline) as [Hy Hxy].
  unfold ols_fit in Hok, Hfl at 2.
  rewrite !length_map in Hok, Hfl.
  destruct (negb (length x =? length y)%nat); [discriminate |].
  cbn [f_is_zero watching_div] in Hok, Hfl.
  destruct (is_zero _) eqn:Hdet; [discriminate |].
  cbn [option_map fst snd] in Hfl.
  eexists. eexists. split; [exact Hfl |].
  cbn [ok fl ex watch2 f_div f_sub f_mul watching watching_div] in Hok, Hdet |- *.
  split_flags.
  match goal with
  | Ha : agrees _ _ = true |- _ =>
      pose proof (@agrees_not_zero _ _ Ha Hdet) as Hnz
  end.
  destruct (recover Hy Hxy Hnz) as [Hm Hc].
  split.
  - match goal with
    | Ha : agrees _ _ = true |- _ =>
        exact (Qeq_trans _ _ _ (proj1 (@agrees_qval _ _ Ha)) Hm)
    end.
  - match goal with
    | Ha : agrees _ _ = true |- _ =>
        exact (Qeq_trans _ _ _ (proj1 (@agrees_qval _ _ Ha)) Hc)
    end.
Qed.


Lemma wls_recovers (x y sigma : list float) (m0 c0 : Q) :
  Forall2 (fun xi yi => qval yi == m0 * qval xi + c0) x y ->
  unrounded_wls x y sigma = true ->
  exists m c pcov,
    wls_fit x y sigma true = Some ([m; c], pcov) /\
    qval m == m0 /\ qval c == c0.
Proof.
  intros Hline Hok. unfold unrounded_wls in Hok.
  pose proof (wls_fit_fl (map given x) (map given y) (map given sigma))
    as Hfl.
  rewrite !fl_given in Hfl.
  unfold wls_fit in Hok, Hfl at 2.
  rewrite !length_map in Hok, Hfl.
  destruct (negb _) eqn:Hlen; [discriminate |].
  apply Bool.negb_false_iff, andb_prop in Hlen. destruct Hlen as [_ Hlen].
  apply Nat.eqb_eq in Hlen.
  destruct (existsb _ _); [discriminate |].
  set (w := map (fun s : watched => f_div f_one (f_mul s s))
                (map given sigma)) in *.
  assert (Hw : length w = length x)
    by (unfold w; now rewrite !length_map).
  destruct (wls_sums Hline w Hw) as [Hy Hxy].
  cbn [f_is_zero watching_div] in Hok, Hfl.
  destruct (is_zero _) eqn:Hdet; [discriminate |].
  cbn [option_map fst snd map] in Hfl.
  do 3 eexists. split; [exact Hfl |].
  cbn [ok fl ex watch2 f_div f_sub f_mul watching watching_div]
    in Hok, Hdet |- *.
  split_flags.
  match goal with
  | Ha : agrees _ _ = true |- _ =>
      pose proof (@agrees_not_zero _ _ Ha Hdet) as Hnz
  end.
  destruct (recover Hy Hxy Hnz) as [Hm Hc].
  split.
  - match goal with
    | Ha : agrees _ _ = true |- _ =>
        exact (Qeq_trans _ _ _ (proj1 (@agrees_qval _ _ Ha)) Hm)
    end.
  - match goal with
    | Ha : agrees _ _ = true |- _ =>
        exact (Qeq_trans _ _ _ (proj1 (@agrees_qval _ _ Ha)) Hc)
    end.
Qed.

End ClosedFormFacts.

Section CovarianceOfTheFit.
Context {F : Type} {A : Arith F} {D : @ArithDiv F A}.

(** With [absolute_sigma] the covariance comes from [x] and [sigma]
    alone. *)
Lemma wls_fit_covariance (x y y' sigma popt popt' : list F)
  (pcov pcov' : list (list F)) :
  wls_fit x y sigma true = Some (popt, pcov) ->
  wls_fit x y' sigma true = Some (popt', pcov') ->
  pcov' = pcov.
Proof.
  unfold wls_fit. intros Hy Hy'.
  destruct (negb _); [discriminate |].
  destruct (negb _); [discriminate |].
  destruct (existsb _ _); [discriminate |].
  destruct (f_is_zero _); [discriminate |].
  injection Hy as _ <-. injection Hy' as _ <-. reflexivity.
Qed.

End CovarianceOfTheFit.






